(** * tsfiltor: the condition model, the primitive predicates and the evaluator

    A shallow embedding of [src/conditions.ts], [src/evaluator.ts],
    [src/builders.ts] and [src/types.ts].

    JavaScript values are modelled as a finite tree of data.  Reference
    values (arrays, objects, dates, regular expressions, schema objects)
    carry the address they live at, because [===] compares them by
    identity.  Numbers are restricted to integers; strings are sequences of
    8-bit code units.  A plain object is seen through its own properties
    (what it inherits from [Object.prototype] is not modelled).  A schema
    object is an instance of a class of the schema library: it has no own
    enumerable property and its one modelled member is the method
    [safeParse].  What the engine delegates to the JavaScript runtime
    or to an external library (the regular-expression engine, the coercions
    of mixed-type comparisons, [String(v)], the schema library) is gathered
    in the [Host] class and left abstract. *)

From Stdlib Require Import ZArith Bool.
From stdpp Require Import gmap strings list.

Local Open Scope Z_scope.

(** ** Values *)

Definition addr := nat.
Bind Scope nat_scope with addr.

#[local] Set Warnings "-register-all".

Inductive value : Type :=
| VUndefined
| VNull
| VBool (b : bool)
| VNum (n : Z)
| VStr (s : string)
| VArr (a : addr) (elems : list value)
| VObj (a : addr) (props : list (string * value))
| VDate (a : addr) (time : Z)
| VRegExp (a : addr) (source flags : string)
| VSchema (a : addr).

(** A plain object is the list of its own enumerable properties, in the
    order [Object.entries] lists them. *)
Definition props := list (string * value).

Fixpoint size (v : value) : nat :=
  match v with
  | VArr _ xs => S (list_sum (map size xs))
  | VObj _ ps => S (list_sum (map (fun p => size (snd p)) ps))
  | _ => 0%nat
  end.

(** ** Completions: a call returns normally or throws *)

Inductive error : Type :=
| TypeError
| Raised (payload : value).

Inductive completion (A : Type) : Type :=
| Normal (a : A)
| Throw (e : error).
Arguments Normal {A} a.
Arguments Throw {A} e.

(** ** What the runtime and the schema library provide *)

Class Host := {
  (** [new RegExp(source)] succeeds (does not throw a SyntaxError) *)
  regexp_parses : string -> bool;
  (** [new RegExp(source, flags).test(input)]; the position a global or
      sticky expression keeps from one call to the next is not modelled *)
  regexp_test : string -> string -> string -> bool;
  (** [String(v)] for a [v] that is not a string *)
  coerce_string : value -> string;
  (** [x < y] for operands other than two numbers or two strings;
      [None] is the undefined result of a comparison with NaN *)
  coerce_less : value -> value -> option bool;
  (** [schema.safeParse(v).success]; what the schema throws is the payload
      of [Raised] *)
  schema_safeParse : addr -> value -> completion bool
}.

(** ** The operations of the language the source uses *)

Fixpoint lookup_prop (k : string) (ps : props) : option value :=
  match ps with
  | [] => None
  | (k', v) :: rest => if String.eqb k k' then Some v else lookup_prop k rest
  end.

(** [x === y] *)
Definition strict_eq (x y : value) : bool :=
  match x, y with
  | VUndefined, VUndefined => true
  | VNull, VNull => true
  | VBool a, VBool b => Bool.eqb a b
  | VNum a, VNum b => Z.eqb a b
  | VStr a, VStr b => String.eqb a b
  | VArr a _, VArr b _ => Nat.eqb a b
  | VObj a _, VObj b _ => Nat.eqb a b
  | VDate a _, VDate b _ => Nat.eqb a b
  | VRegExp a _ _, VRegExp b _ _ => Nat.eqb a b
  | VSchema a, VSchema b => Nat.eqb a b
  | _, _ => false
  end.

(** [!!x] *)
Definition to_boolean (x : value) : bool :=
  match x with
  | VUndefined | VNull => false
  | VBool b => b
  | VNum n => negb (Z.eqb n 0)
  | VStr s => negb (String.eqb s "")
  | _ => true
  end.

(** [typeof x === 'object'] (true of [null] as well) *)
Definition typeof_object (x : value) : bool :=
  match x with
  | VNull | VArr _ _ | VObj _ _ | VDate _ _ | VRegExp _ _ _ | VSchema _ => true
  | _ => false
  end.

Definition typeof_string (x : value) : bool :=
  match x with VStr _ => true | _ => false end.

Definition Array_isArray (x : value) : bool :=
  match x with VArr _ _ => true | _ => false end.

Definition instanceof_Date (x : value) : bool :=
  match x with VDate _ _ => true | _ => false end.

Definition instanceof_RegExp (x : value) : bool :=
  match x with VRegExp _ _ _ => true | _ => false end.

(** [k in o] for an [o] that is an object *)
Definition has_key (k : string) (o : value) : bool :=
  match o with
  | VObj _ ps => match lookup_prop k ps with Some _ => true | None => false end
  | _ => false
  end.

(** [k in o]; a TypeError when [o] is a primitive *)
Definition in_ (k : string) (o : value) : completion bool :=
  match o with
  | VUndefined | VNull | VBool _ | VNum _ | VStr _ => Throw TypeError
  | _ => Normal (has_key k o)
  end.

(** [o.k] for an [o] that is an object and [k] one of the keys the
    evaluator reads off a condition *)
Definition get (o : value) (k : string) : value :=
  match o with
  | VObj _ ps => default VUndefined (lookup_prop k ps)
  | _ => VUndefined
  end.

(** [Object.entries(o)] *)
Definition Object_entries (o : value) : props :=
  match o with
  | VObj _ ps => ps
  | _ => []
  end.

Section Runtime.
Context {host : Host}.

(** [String(v)] *)
Definition String_ (v : value) : string :=
  match v with VStr s => s | _ => coerce_string v end.

(** [x < y]: [Some true], [Some false], or [None] (undefined) *)
Definition less_than (x y : value) : option bool :=
  match x, y with
  | VNum a, VNum b => Some (Z.ltb a b)
  | VStr a, VStr b => Some (String.ltb a b)
  | _, _ => coerce_less x y
  end.

End Runtime.

(** [s.includes(t)] on strings *)
Fixpoint string_includes (s t : string) : bool :=
  String.prefix t s ||
  match s with
  | EmptyString => false
  | String _ s' => string_includes s' t
  end.

(** [s.endsWith(t)] *)
Definition string_endsWith (s t : string) : bool :=
  let n := String.length s in
  let m := String.length t in
  (m <=? n)%nat && String.eqb (String.substring (n - m) m s) t.

(** [xs.includes(x)] on arrays *)
Definition array_includes (xs : list value) (x : value) : bool :=
  existsb (fun y => strict_eq y x) xs.

(** ** conditions.ts: the primitive predicates *)

Module conditions.
Section Predicates.
Context {host : Host}.

Definition eq (x v : value) : bool := strict_eq x v.

Definition ne (x v : value) : bool := negb (strict_eq x v).

Definition lt (x v : value) : bool :=
  match less_than x v with Some true => true | _ => false end.

(** [x <= v] is [v < x] being false (and not undefined) *)
Definition lte (x v : value) : bool :=
  match less_than v x with Some false => true | _ => false end.

Definition gt (x v : value) : bool :=
  match less_than v x with Some true => true | _ => false end.

Definition gte (x v : value) : bool :=
  match less_than x v with Some false => true | _ => false end.

Definition anyOf (x values : value) : bool :=
  match values with
  | VArr _ vs => array_includes vs x
  | _ => false
  end.

Definition contains (x v : value) : bool :=
  match x with
  | VStr s => string_includes s (String_ v)
  | VArr _ xs => array_includes xs v
  | _ => false
  end.

Definition startsWith (x v : value) : bool :=
  match x with
  | VStr s => String.prefix (String_ v) s
  | _ => false
  end.

Definition endsWith (x v : value) : bool :=
  match x with
  | VStr s => string_endsWith s (String_ v)
  | _ => false
  end.

(** [x.length] of a string or an array *)
Definition length_of (x : value) : option Z :=
  match x with
  | VStr s => Some (Z.of_nat (String.length s))
  | VArr _ xs => Some (Z.of_nat (length xs))
  | _ => None
  end.

Definition minLength (x v : value) : bool :=
  match length_of x with
  | Some n => gte (VNum n) v
  | None => false
  end.

Definition maxLength (x v : value) : bool :=
  match length_of x with
  | Some n => lte (VNum n) v
  | None => false
  end.

Definition truthy (x : value) : bool := to_boolean x.

Definition isNull (x : value) : bool :=
  strict_eq x VNull || strict_eq x VUndefined.

Definition isNotNull (x : value) : bool :=
  negb (strict_eq x VNull) && negb (strict_eq x VUndefined).

(** A resolved pattern is the source and the flags of a RegExp object. *)
Definition resolvePattern (v : value) : option (string * string) :=
  match v with
  | VRegExp _ source flags => Some (source, flags)
  | VStr s => if regexp_parses s then Some (s, ""%string) else None
  | _ => None
  end.

Definition matches (x pattern : value) : bool :=
  match resolvePattern pattern with
  | None => false
  | Some (source, flags) =>
      match x with
      | VStr s => regexp_test source flags s
      | _ => false
      end
  end.

(** The prototype of a plain object is [Object.prototype] or [null]; that
    of an array, a date, a regular expression or a schema object is not. *)
Definition isRecord (v : value) : bool :=
  match v with
  | VObj _ _ => true
  | _ => false
  end.

(** [schema.safeParse(value).success]: a value that is not a schema object
    has no callable [safeParse]. *)
Definition matchesZodSchema (v schema : value) : completion bool :=
  match schema with
  | VSchema a => schema_safeParse a v
  | _ => Throw TypeError
  end.

End Predicates.
End conditions.

(** ** types.ts: the operator identifiers *)

Inductive ConditionOperator : Type :=
| Equal | NotEqual | LessThan | LessThanOrEqual | GreaterThan
| GreaterThanOrEqual | AnyOf | Contains | StartsWith | EndsWith
| MinLength | MaxLength | Truthy | IsNull | IsNotNull | Matches
| IsRecord | MatchesZodSchema | AND | OR | NOT.

Definition operator_id (op : ConditionOperator) : string :=
  match op with
  | Equal => "eq" | NotEqual => "ne"
  | LessThan => "lt" | LessThanOrEqual => "lte"
  | GreaterThan => "gt" | GreaterThanOrEqual => "gte"
  | AnyOf => "anyOf" | Contains => "contains"
  | StartsWith => "startsWith" | EndsWith => "endsWith"
  | MinLength => "minLength" | MaxLength => "maxLength"
  | Truthy => "truthy" | IsNull => "isNull" | IsNotNull => "isNotNull"
  | Matches => "matches" | IsRecord => "isRecord"
  | MatchesZodSchema => "matchesZodSchema"
  | AND => "and" | OR => "or" | NOT => "not"
  end.

(** The objects and arrays the library allocates itself (in the builders and
    in [matchesAll]) are new; nothing in the evaluator or in the built-in
    predicates compares their identity, and they are given this address. *)
Definition literal : addr := 0.

(** [{ field, operator, value }]; the operator is an identifier of the enum
    or one a caller registered. *)
Definition BaseCondition (field operator : string) (v : value) : value :=
  VObj literal [("field"%string, VStr field);
                ("operator"%string, VStr operator);
                ("value"%string, v)].

(** The three fieldless members of the [FilterCondition] union:
    [{ operator: ConditionOperator.AND, value: FilterCondition[] }],
    [{ operator: ConditionOperator.OR, value: FilterCondition[] }] and
    [{ operator: ConditionOperator.NOT, value: FilterCondition }]. *)
Definition LogicalCondition (op : ConditionOperator) (v : value) : value :=
  VObj literal [("operator"%string, VStr (operator_id op)); ("value"%string, v)].

(** ** builders.ts *)

Module builders.

Definition eq (field : string) (v : value) : value := BaseCondition field (operator_id Equal) v.
Definition ne (field : string) (v : value) : value := BaseCondition field (operator_id NotEqual) v.
Definition lt (field : string) (v : value) : value := BaseCondition field (operator_id LessThan) v.
Definition lte (field : string) (v : value) : value := BaseCondition field (operator_id LessThanOrEqual) v.
Definition gt (field : string) (v : value) : value := BaseCondition field (operator_id GreaterThan) v.
Definition gte (field : string) (v : value) : value := BaseCondition field (operator_id GreaterThanOrEqual) v.
Definition anyOf (field : string) (values : value) : value := BaseCondition field (operator_id AnyOf) values.
Definition contains (field : string) (v : value) : value := BaseCondition field (operator_id Contains) v.
Definition startsWith (field : string) (v : value) : value := BaseCondition field (operator_id StartsWith) v.
Definition endsWith (field : string) (v : value) : value := BaseCondition field (operator_id EndsWith) v.
Definition minLength (field : string) (v : value) : value := BaseCondition field (operator_id MinLength) v.
Definition maxLength (field : string) (v : value) : value := BaseCondition field (operator_id MaxLength) v.
Definition truthy (field : string) : value := BaseCondition field (operator_id Truthy) (VBool true).
Definition isNull (field : string) : value := BaseCondition field (operator_id IsNull) VNull.
Definition isNotNull (field : string) : value := BaseCondition field (operator_id IsNotNull) VNull.
Definition matches (field : string) (pattern : value) : value := BaseCondition field (operator_id Matches) pattern.
Definition isRecord (field : string) : value := BaseCondition field (operator_id IsRecord) (VBool true).
Definition matchesZodSchema (field : string) (schema : value) : value :=
  BaseCondition field (operator_id MatchesZodSchema) schema.

(** [Object.entries(record).map(([field, value]) => eq(field, value))],
    wrapped as [{ and: conditions }] *)
Definition matchesAll (record : value) : value :=
  let conditions := map (fun '(field, v) => eq field v) (Object_entries record) in
  VObj literal [("and"%string, VArr literal conditions)].

(** [{ and: conditions.filter(c => !!c) }] *)
Definition and (conditions : list value) : value :=
  VObj literal [("and"%string, VArr literal (List.filter to_boolean conditions))].

Definition or (conditions : list value) : value :=
  VObj literal [("or"%string, VArr literal conditions)].

End builders.

(** ** evaluator.ts *)

(** An entity is a plain record ([T extends Record<string, any>]). *)
Record entity : Type := Entity { entity_addr : addr; entity_props : props }.

Definition entity_value (e : entity) : value :=
  VObj (entity_addr e) (entity_props e).

(** [(fieldValue, conditionValue, entity, condition) => boolean]; a
    registered function may throw. *)
Abbreviation EvaluatorFn := (value -> value -> value -> value -> completion bool).

Section Evaluator.
Context {host : Host}.

(** The registry as it is when the module is loaded. *)
Definition operatorEvaluators : gmap string EvaluatorFn :=
  list_to_map [
    (operator_id Equal, fun fieldValue conditionValue _ _ => Normal (conditions.eq fieldValue conditionValue));
    (operator_id NotEqual, fun fieldValue conditionValue _ _ => Normal (conditions.ne fieldValue conditionValue));
    (operator_id LessThan, fun fieldValue conditionValue _ _ => Normal (conditions.lt fieldValue conditionValue));
    (operator_id LessThanOrEqual, fun fieldValue conditionValue _ _ => Normal (conditions.lte fieldValue conditionValue));
    (operator_id GreaterThan, fun fieldValue conditionValue _ _ => Normal (conditions.gt fieldValue conditionValue));
    (operator_id GreaterThanOrEqual, fun fieldValue conditionValue _ _ => Normal (conditions.gte fieldValue conditionValue));
    (operator_id AnyOf, fun fieldValue conditionValue _ _ => Normal (conditions.anyOf fieldValue conditionValue));
    (operator_id Contains, fun fieldValue conditionValue _ _ => Normal (conditions.contains fieldValue conditionValue));
    (operator_id StartsWith, fun fieldValue conditionValue _ _ => Normal (conditions.startsWith fieldValue conditionValue));
    (operator_id EndsWith, fun fieldValue conditionValue _ _ => Normal (conditions.endsWith fieldValue conditionValue));
    (operator_id MinLength, fun fieldValue conditionValue _ _ => Normal (conditions.minLength fieldValue conditionValue));
    (operator_id MaxLength, fun fieldValue conditionValue _ _ => Normal (conditions.maxLength fieldValue conditionValue));
    (operator_id Truthy, fun fieldValue _ _ _ => Normal (conditions.truthy fieldValue));
    (operator_id IsNull, fun fieldValue _ _ _ => Normal (conditions.isNull fieldValue));
    (operator_id IsNotNull, fun fieldValue _ _ _ => Normal (conditions.isNotNull fieldValue));
    (operator_id Matches, fun fieldValue conditionValue _ _ => Normal (conditions.matches fieldValue conditionValue));
    (operator_id IsRecord, fun fieldValue _ _ _ => Normal (conditions.isRecord fieldValue));
    (operator_id MatchesZodSchema, fun fieldValue conditionValue _ _ => conditions.matchesZodSchema fieldValue conditionValue)
  ].

(** The registry is global mutable state; it is passed explicitly. *)
Definition registerOperator (operator : string) (evaluator : EvaluatorFn)
    (registry : gmap string EvaluatorFn) : gmap string EvaluatorFn :=
  <[operator := evaluator]> registry.

Definition isPlainRecord (v : value) : bool :=
  if negb (to_boolean v) || negb (typeof_object v) then false
  else if Array_isArray v then false
  else if instanceof_Date v || instanceof_RegExp v then false
  else if has_key "field" v && has_key "operator" v then false
  else if has_key "and" v || has_key "or" v then false
  else true.

(** The elements of an array. *)
Definition elements (v : value) : list value :=
  match v with VArr _ xs => xs | _ => [] end.

(** [xs.every(f)] and [xs.some(f)] for a callback that may throw; [None]
    is passed through (see [evaluate_fuel]). *)
Fixpoint every (f : value -> option (completion bool)) (xs : list value)
    : option (completion bool) :=
  match xs with
  | [] => Some (Normal true)
  | x :: rest =>
      match f x with
      | Some (Normal true) => every f rest
      | r => r
      end
  end.

Fixpoint some (f : value -> option (completion bool)) (xs : list value)
    : option (completion bool) :=
  match xs with
  | [] => Some (Normal false)
  | x :: rest =>
      match f x with
      | Some (Normal false) => some f rest
      | r => r
      end
  end.

(** [v.every(f)] and [v.some(f)] on a value read off a condition: only an
    array has these methods. *)
Definition call_every (v : value) (f : value -> option (completion bool))
    : option (completion bool) :=
  match v with VArr _ xs => every f xs | _ => Some (Throw TypeError) end.

Definition call_some (v : value) (f : value -> option (completion bool))
    : option (completion bool) :=
  match v with VArr _ xs => some f xs | _ => Some (Throw TypeError) end.

(** [!r] *)
Definition negate (r : option (completion bool)) : option (completion bool) :=
  match r with
  | Some (Normal b) => Some (Normal (negb b))
  | r => r
  end.

(** [entity[field]] *)
Definition read_field (e : entity) (field : value) : value :=
  default VUndefined (lookup_prop (String_ field) (entity_props e)).

(** The body of [evaluateCondition]; [recur] stands for the function
    itself at its recursive calls, [c => evaluateCondition(entity, c)]. *)
Definition evaluate_body (registry : gmap string EvaluatorFn)
    (recur : value -> option (completion bool))
    (e : entity) (condition : value) : option (completion bool) :=
  if strict_eq condition VNull || strict_eq condition VUndefined then Some (Normal true)
  else if strict_eq condition (VBool true) then Some (Normal true)
  else if strict_eq condition (VBool false) then Some (Normal true)
  else if Array_isArray condition then every recur (elements condition)
  else
    let condition :=
      if isPlainRecord condition then builders.matchesAll condition else condition in
    match in_ "and" condition with
    | Throw err => Some (Throw err)
    | Normal has_and =>
        if has_and && Array_isArray (get condition "and") then
          every recur (elements (get condition "and"))
        else if has_key "or" condition && Array_isArray (get condition "or") then
          some recur (elements (get condition "or"))
        else if strict_eq (get condition "operator") (VStr (operator_id AND)) then
          call_every (get condition "value") recur
        else if strict_eq (get condition "operator") (VStr (operator_id OR)) then
          call_some (get condition "value") recur
        else if strict_eq (get condition "operator") (VStr (operator_id NOT)) then
          negate (recur (get condition "value"))
        else
          match registry !! String_ (get condition "operator") with
          | None => Some (Normal false)
          | Some evaluator =>
              let fieldValue := read_field e (get condition "field") in
              Some (evaluator fieldValue (get condition "value") (entity_value e) condition)
          end
    end.

(** [evaluateCondition], with the depth of the recursion bounded by [fuel];
    [None] when the bound is reached. *)
Fixpoint evaluate_fuel (registry : gmap string EvaluatorFn) (fuel : nat)
    (e : entity) (condition : value) : option (completion bool) :=
  match fuel with
  | O => None
  | S fuel => evaluate_body registry (evaluate_fuel registry fuel e) e condition
  end.

(** The recursion never goes deeper than the size of the condition
    ([evaluate_fuel_enough] below), so this is the result of the call. *)
Definition evaluateCondition (registry : gmap string EvaluatorFn)
    (e : entity) (condition : value) : completion bool :=
  default (Throw TypeError) (evaluate_fuel registry (S (size condition)) e condition).

Definition getEvaluator (registry : gmap string EvaluatorFn) (condition : value)
    : entity -> completion bool :=
  fun e => evaluateCondition registry e condition.

End Evaluator.

Arguments evaluateCondition : simpl never.

(** ** evaluator.ts: the operations on collections *)

Section Collections.
Context {host : Host}.
Variable registry : gmap string EvaluatorFn.

(** [xs.filter(f)], [xs.find(f)] and [xs.some(f)] for a callback that may
    throw. *)
Fixpoint Array_filter {A : Type} (f : A -> completion bool) (xs : list A)
    : completion (list A) :=
  match xs with
  | [] => Normal []
  | x :: rest =>
      match f x with
      | Throw err => Throw err
      | Normal keep =>
          match Array_filter f rest with
          | Throw err => Throw err
          | Normal kept => Normal (if keep then x :: kept else kept)
          end
      end
  end.

Fixpoint Array_find {A : Type} (f : A -> completion bool) (xs : list A)
    : completion (option A) :=
  match xs with
  | [] => Normal None
  | x :: rest =>
      match f x with
      | Throw err => Throw err
      | Normal true => Normal (Some x)
      | Normal false => Array_find f rest
      end
  end.

Fixpoint Array_some {A : Type} (f : A -> completion bool) (xs : list A)
    : completion bool :=
  match xs with
  | [] => Normal false
  | x :: rest =>
      match f x with
      | Throw err => Throw err
      | Normal true => Normal true
      | Normal false => Array_some f rest
      end
  end.

(** [xs.slice(start, end)]: a negative index counts from the end, an
    undefined [end] is the length. *)
Definition relative_index (len i : Z) : Z :=
  if i <? 0 then Z.max (len + i) 0 else Z.min i len.

Definition slice {A : Type} (xs : list A) (start : Z) (end_ : option Z) : list A :=
  let len := Z.of_nat (length xs) in
  let k := relative_index len start in
  let final := match end_ with None => len | Some j => relative_index len j end in
  firstn (Z.to_nat (final - k)) (skipn (Z.to_nat k) xs).

Definition filterEntities (entities : list entity) (filter : value)
    : completion (list entity) :=
  Array_filter (getEvaluator registry filter) entities.

(** [entities.find(...) || null]; [None] is [null]. *)
Definition findFirst (entities : list entity) (filter : value)
    : completion (option entity) :=
  Array_find (getEvaluator registry filter) entities.

Definition matchExists (entities : list entity) (filter : value) : completion bool :=
  if negb (to_boolean filter) then Normal (0 <? Z.of_nat (length entities))
  else Array_some (getEvaluator registry filter) entities.

Definition countWhere (entities : list entity) (filter : value) : completion Z :=
  match Array_filter (getEvaluator registry filter) entities with
  | Throw err => Throw err
  | Normal kept => Normal (Z.of_nat (length kept))
  end.

(** The options of [findWhere]: an absent [filter] is [undefined], an
    absent [limit] or [offset] is [None]. *)
Record options : Type := Options {
  filter : value;
  limit : option Z;
  offset : option Z
}.

(** The [for] loop of [findWhere]: [results] and [skipped] are its two
    variables; [break] returns [results]. *)
Fixpoint findWhere_loop (filter : value) (hasLimit : bool) (limit skipCount : Z)
    (entities : list entity) (results : list entity) (skipped : Z)
    : completion (list entity) :=
  match entities with
  | [] => Normal results
  | e :: rest =>
      match evaluateCondition registry e filter with
      | Throw err => Throw err
      | Normal true =>
          if skipped <? skipCount then
            findWhere_loop filter hasLimit limit skipCount rest results (skipped + 1)
          else
            let results := results ++ [e] in
            if hasLimit && (limit <=? Z.of_nat (length results)) then Normal results
            else findWhere_loop filter hasLimit limit skipCount rest results skipped
      | Normal false =>
          findWhere_loop filter hasLimit limit skipCount rest results skipped
      end
  end.

Definition findWhere (entities : list entity) (o : options) : completion (list entity) :=
  if negb (to_boolean (filter o)) then
    let start := default 0 (offset o) in
    let end_ := match limit o with Some l => Some (start + l) | None => None end in
    Normal (slice entities start end_)
  else
    let hasLimit := match limit o with Some l => 0 <? l | None => false end in
    let skipCount := default 0 (offset o) in
    findWhere_loop (filter o) hasLimit (default 0 (limit o)) skipCount entities [] 0.

End Collections.

(** ** The operators [&&] and [||] on two calls of [evaluateCondition]

    The right operand is evaluated only when the left one returns [true]
    (for [&&]) or [false] (for [||]); a left operand that throws makes the
    whole expression throw. *)

Definition and_then (left right : completion bool) : completion bool :=
  match left with
  | Normal true => right
  | _ => left
  end.

Definition or_else (left right : completion bool) : completion bool :=
  match left with
  | Normal false => right
  | _ => left
  end.

(** ** A host and records to run the definitions on

    The regular expressions of this host are plain texts, searched for as
    they are, except ["("], which does not parse; its schema object at
    address 7 throws, the others accept every truthy value. *)

Definition sample_host : Host := {|
  regexp_parses source := negb (String.eqb source "(");
  regexp_test source flags input := string_includes input source;
  coerce_string v := "undefined"%string;
  coerce_less x y := None;
  schema_safeParse a v :=
    if Nat.eqb a 7 then Throw (Raised (VStr "not a schema")) else Normal (to_boolean v)
|}.

Definition John : entity :=
  Entity 1 [("name"%string, VStr "John"); ("age"%string, VNum 25);
            ("status"%string, VStr "active"); ("tags"%string, VArr 2 [VStr "vip"])].

Definition Jane : entity :=
  Entity 3 [("name"%string, VStr "Jane"); ("age"%string, VNum 30);
            ("status"%string, VStr "active"); ("tags"%string, VArr 4 [])].

Definition Bob : entity :=
  Entity 5 [("name"%string, VStr "Bob"); ("age"%string, VNum 18);
            ("status"%string, VStr "inactive"); ("tags"%string, VArr 6 [])].

(** The registry of the module as loaded, on the sample host. *)
Definition sample_registry : gmap string EvaluatorFn :=
  @operatorEvaluators sample_host.

(** ** extensions.ts: the methods bound on [Array.prototype]

    The prototype is seen as the map from a name to what is bound there.
    [Installed m] is the function [enableArrayExtensions] creates for the
    method [m], which passes [this] and its argument on to the operation of
    evaluator.ts of that name; anything else bound there is a value or a
    function of someone else. *)

Module extensions.

Inductive method : Type :=
| m_where | m_first | m_exists | m_count | m_findWhere.

Definition method_name (m : method) : string :=
  match m with
  | m_where => "where"
  | m_first => "first"
  | m_exists => "exists"
  | m_count => "count"
  | m_findWhere => "findWhere"
  end.

Inductive member : Type :=
| Installed (m : method)
| OtherValue (v : value)
| OtherFunction (id : nat).

(** [!!Array.prototype[name]]; an absent name reads as [undefined]. *)
Definition bound (proto : gmap string member) (name : string) : bool :=
  match proto !! name with
  | None => false
  | Some (OtherValue v) => to_boolean v
  | Some _ => true
  end.

(** [if (!Array.prototype[name] || overwrite) Array.prototype[name] = ...] *)
Definition install (overwrite : bool) (m : method) (proto : gmap string member)
    : gmap string member :=
  if negb (bound proto (method_name m)) || overwrite then
    <[method_name m := Installed m]> proto
  else proto.

(** [options.overwrite] defaults to [false]. *)
Definition enableArrayExtensions (overwrite : option bool) (proto : gmap string member)
    : gmap string member :=
  let overwrite := default false overwrite in
  install overwrite m_findWhere
    (install overwrite m_count
       (install overwrite m_exists
          (install overwrite m_first
             (install overwrite m_where proto)))).


End extensions.

(** ** Two notions to state properties with *)

(** [!r] on the result of a call *)
Definition negation (r : completion bool) : completion bool :=
  match r with
  | Normal b => Normal (negb b)
  | Throw err => Throw err
  end.


(** * Properties *)

(** ** The recursion of [evaluateCondition] is bounded by the condition *)

Lemma list_sum_cons (n : nat) (l : list nat) :
  list_sum (n :: l) = (n + list_sum l)%nat.
Proof. reflexivity. Qed.

Lemma size_element (a : addr) (xs : list value) (x : value) :
  x ∈ xs -> (size x < size (VArr a xs))%nat.
Proof.
  intros Hx. cbn [size].
  induction Hx as [x xs | x y xs _ IH]; cbn [map]; rewrite list_sum_cons; lia.
Qed.

Lemma size_lookup_prop (a : addr) (ps : props) (k : string) (v : value) :
  lookup_prop k ps = Some v -> (size v < size (VObj a ps))%nat.
Proof.
  cbn [size]. induction ps as [| [k' v'] ps IH]; cbn [lookup_prop map snd].
  - discriminate.
  - rewrite list_sum_cons. destruct (String.eqb k k').
    + intros [= ->]. lia.
    + intros H. specialize (IH H). lia.
Qed.

Lemma size_get (a : addr) (ps : props) (k : string) :
  (size (get (VObj a ps) k) < size (VObj a ps))%nat.
Proof.
  unfold get. destruct (lookup_prop k ps) as [v |] eqn:Hk; cbn [default].
  - eauto using size_lookup_prop.
  - cbn. lia.
Qed.

Lemma size_get_element (a : addr) (ps : props) (k : string) (x : value) :
  x ∈ elements (get (VObj a ps) k) -> (size x < size (VObj a ps))%nat.
Proof.
  intros Hx. pose proof (size_get a ps k) as Hlt.
  destruct (get (VObj a ps) k) as [| | | | |b xs| | | |]; cbn [elements] in Hx;
    try (by apply elem_of_nil in Hx).
  pose proof (size_element b xs x Hx). lia.
Qed.

(** An object is none of [null], [undefined], [true], [false] or an array:
    the first four tests of [evaluate_body] fail on it. *)
Ltac object_passes_the_literal_tests a ps :=
  change (strict_eq (VObj a ps) VNull || strict_eq (VObj a ps) VUndefined) with false;
  change (strict_eq (VObj a ps) (VBool true)) with false;
  change (strict_eq (VObj a ps) (VBool false)) with false;
  change (Array_isArray (VObj a ps)) with false;
  cbv iota.

Section Fuel.
Context {host : Host}.
Variable registry : gmap string EvaluatorFn.
Variable e : entity.

Lemma every_Some (f : value -> option (completion bool)) (xs : list value) :
  (forall x, x ∈ xs -> is_Some (f x)) -> is_Some (every f xs).
Proof.
  induction xs as [| x xs IH]; intros Hf; cbn [every]; [by eexists |].
  destruct (Hf x) as [[[|] | err] ->]; [left | | |]; try by eexists.
  apply IH. intros y Hy. apply Hf. by right.
Qed.

Lemma some_Some (f : value -> option (completion bool)) (xs : list value) :
  (forall x, x ∈ xs -> is_Some (f x)) -> is_Some (some f xs).
Proof.
  induction xs as [| x xs IH]; intros Hf; cbn [some]; [by eexists |].
  destruct (Hf x) as [[[|] | err] ->]; [left | | |]; try by eexists.
  apply IH. intros y Hy. apply Hf. by right.
Qed.

Lemma every_mono (f g : value -> option (completion bool)) (xs : list value) r :
  (forall x r, f x = Some r -> g x = Some r) ->
  every f xs = Some r -> every g xs = Some r.
Proof.
  intros Hfg. induction xs as [| x xs IH]; cbn [every]; [done |].
  destruct (f x) as [[[|] | err] |] eqn:Hx; try discriminate;
    rewrite (Hfg _ _ Hx); auto.
Qed.

Lemma some_mono (f g : value -> option (completion bool)) (xs : list value) r :
  (forall x r, f x = Some r -> g x = Some r) ->
  some f xs = Some r -> some g xs = Some r.
Proof.
  intros Hfg. induction xs as [| x xs IH]; cbn [some]; [done |].
  destruct (f x) as [[[|] | err] |] eqn:Hx; try discriminate;
    rewrite (Hfg _ _ Hx); auto.
Qed.

Lemma negate_mono (f g : value -> option (completion bool)) (x : value) r :
  (forall x r, f x = Some r -> g x = Some r) ->
  negate (f x) = Some r -> negate (g x) = Some r.
Proof.
  intros Hfg. destruct (f x) as [r' |] eqn:Hx; [| done].
  by rewrite (Hfg _ _ Hx).
Qed.

Lemma evaluate_body_mono (f g : value -> option (completion bool)) c r :
  (forall x r, f x = Some r -> g x = Some r) ->
  evaluate_body registry f e c = Some r -> evaluate_body registry g e c = Some r.
Proof.
  intros Hfg. unfold evaluate_body, call_every, call_some.
  repeat (case_match; try done); eauto using every_mono, some_mono, negate_mono.
Qed.

Lemma evaluate_fuel_S (n : nat) c r :
  evaluate_fuel registry n e c = Some r -> evaluate_fuel registry (S n) e c = Some r.
Proof.
  revert c r. induction n as [| n IH]; intros c r; [done |].
  cbn [evaluate_fuel]. apply evaluate_body_mono, IH.
Qed.

Lemma evaluate_fuel_le (n m : nat) c r :
  (n <= m)%nat ->
  evaluate_fuel registry n e c = Some r -> evaluate_fuel registry m e c = Some r.
Proof. induction 1; auto using evaluate_fuel_S. Qed.

Lemma negate_Some (r : option (completion bool)) : is_Some r -> is_Some (negate r).
Proof. intros [[b | err] ->]; by eexists. Qed.

Lemma call_every_Some (f : value -> option (completion bool)) (v : value) :
  (forall x, x ∈ elements v -> is_Some (f x)) -> is_Some (call_every v f).
Proof. destruct v; intros Hf; try by eexists. by apply every_Some. Qed.

Lemma call_some_Some (f : value -> option (completion bool)) (v : value) :
  (forall x, x ∈ elements v -> is_Some (f x)) -> is_Some (call_some v f).
Proof. destruct v; intros Hf; try by eexists. by apply some_Some. Qed.

Lemma isPlainRecord_primitive (v : value) :
  typeof_object v = false -> isPlainRecord v = false.
Proof. intros H. unfold isPlainRecord. by rewrite H, orb_true_r. Qed.

(** One call returns as soon as its recursive calls do: those on the parts
    of the condition and, for a plain record, those on the equalities
    [matchesAll] builds. *)
Lemma evaluate_body_Some (f : value -> option (completion bool)) c :
  (forall x, (size x < size c)%nat -> is_Some (f x)) ->
  ((0 < size c)%nat -> forall field v, is_Some (f (builders.eq field v))) ->
  is_Some (evaluate_body registry f e c).
Proof.
  intros Hsmall Hleaf.
  destruct c as [| | b | n | s | a xs | a ps | a t | a src fl | a].
  1-2: by eexists.
  - destruct b; by eexists.
  - unfold evaluate_body. rewrite isPlainRecord_primitive by done. by eexists.
  - unfold evaluate_body. rewrite isPlainRecord_primitive by done. by eexists.
  - apply every_Some. intros x Hx. apply Hsmall. by apply size_element.
  - unfold evaluate_body. object_passes_the_literal_tests a ps.
    destruct (isPlainRecord (VObj a ps)) eqn:Hplain.
    + cbn. apply every_Some. intros x Hx.
      apply list_elem_of_fmap in Hx as [[k v] [-> _]].
      apply Hleaf. cbn. lia.
    + cbv zeta. cbn [in_].
      repeat case_match; try by eexists.
      * apply every_Some. eauto using size_get_element.
      * apply some_Some. eauto using size_get_element.
      * apply call_every_Some. eauto using size_get_element.
      * apply call_some_Some. eauto using size_get_element.
      * apply negate_Some, Hsmall, size_get.
  - cbn. case_match; by eexists.
  - cbn. case_match; by eexists.
  - by eexists.
Qed.

Lemma evaluate_fuel_leaf (n : nat) (field : string) (v : value) :
  is_Some (evaluate_fuel registry (S n) e (builders.eq field v)).
Proof. cbn. case_match; by eexists. Qed.

Lemma evaluate_fuel_Some (n : nat) c :
  (size c < n)%nat -> is_Some (evaluate_fuel registry n e c).
Proof.
  revert c. induction n as [| n IH]; intros c Hn; [lia |].
  cbn [evaluate_fuel]. apply evaluate_body_Some.
  - intros x Hx. apply IH. lia.
  - intros Hc field v. destruct n as [| n]; [lia |]. apply evaluate_fuel_leaf.
Qed.

(** Whatever the bound, a result is the result of [evaluateCondition]. *)
Lemma evaluate_fuel_sound (n : nat) c r :
  evaluate_fuel registry n e c = Some r -> evaluateCondition registry e c = r.
Proof.
  intros Hn. unfold evaluateCondition.
  destruct (evaluate_fuel_Some (S (size c)) c) as [r' Hr']; [lia |].
  rewrite Hr'. cbn.
  apply (evaluate_fuel_le _ (Nat.max n (S (size c)))) in Hn; [| lia].
  apply (evaluate_fuel_le _ (Nat.max n (S (size c)))) in Hr'; [| lia].
  congruence.
Qed.

(** Enough fuel gives the result: [evaluateCondition] is total. *)
Lemma evaluate_fuel_enough (n : nat) c :
  (size c < n)%nat ->
  evaluate_fuel registry n e c = Some (evaluateCondition registry e c).
Proof.
  intros Hn. destruct (evaluate_fuel_Some n c Hn) as [r Hr].
  by rewrite Hr, (evaluate_fuel_sound _ _ _ Hr).
Qed.

(** The equation of [evaluateCondition]: its body, with itself at the
    recursive calls. *)
Lemma evaluateCondition_unfold c :
  Some (evaluateCondition registry e c)
  = evaluate_body registry (fun x => Some (evaluateCondition registry e x)) e c.
Proof.
  symmetry.
  apply (evaluate_body_mono (evaluate_fuel registry (S (size c)) e)).
  - intros x r Hx. by rewrite (evaluate_fuel_sound _ _ _ Hx).
  - change (evaluate_fuel registry (S (S (size c))) e c = Some (evaluateCondition registry e c)).
    apply evaluate_fuel_enough. lia.
Qed.

End Fuel.

(** ** The scenarios of the test suite *)

Example scenario_eq :
  @evaluateCondition sample_host sample_registry John (builders.eq "name" (VStr "John")) = Normal true
  /\ @evaluateCondition sample_host sample_registry John (builders.eq "name" (VStr "Jane")) = Normal false.
Proof. split; vm_compute; reflexivity. Qed.

Example scenario_filter :
  @filterEntities sample_host sample_registry [John; Jane; Bob]
    (builders.and [builders.eq "status" (VStr "active"); builders.gt "age" (VNum 20)])
  = Normal [John; Jane].
Proof. vm_compute. reflexivity. Qed.

Example scenario_page :
  @findWhere sample_host sample_registry [John; Jane; Bob]
    (Options (builders.eq "status" (VStr "active")) (Some 1) (Some 1))
  = Normal [Jane].
Proof. vm_compute. reflexivity. Qed.

Example scenario_count :
  @countWhere sample_host sample_registry [John; Jane; Bob]
    (builders.eq "status" (VStr "nonexistent"))
  = Normal 0.
Proof. vm_compute. reflexivity. Qed.

Example scenario_exists :
  @matchExists sample_host sample_registry [] (builders.eq "name" (VStr "John")) = Normal false
  /\ @matchExists sample_host sample_registry [John; Jane; Bob] VNull = Normal true.
Proof. split; vm_compute; reflexivity. Qed.

(** A second registration of an identifier replaces the first. *)
Lemma registerOperator_overrides (registry : gmap string EvaluatorFn)
    (operator : string) (fn1 fn2 : EvaluatorFn) :
  registerOperator operator fn2 (registerOperator operator fn1 registry) !! operator
  = Some fn2.
Proof. unfold registerOperator. by rewrite lookup_insert_eq. Qed.

(** A negative offset skips nothing in the scan and counts from the end in
    [slice]; and the scan stops at the limit, before a record on which the
    filter throws. *)
Example findWhere_negative_offset :
  let e1 := Entity 1 [] in
  let e2 := Entity 2 [] in
  @findWhere sample_host sample_registry [e1; e2] (Options (VObj 3 []) (Some 1) (Some (-1)))
  = Normal [e1]
  /\ slice [e1; e2] (-1) (Some (-1 + 1)) = [].
Proof. split; vm_compute; reflexivity. Qed.

Example findWhere_stops_before_a_throw :
  let F := builders.matchesZodSchema "schema" (VSchema 7) in
  let G := builders.or [builders.isNull "schema"; F] in
  let e1 := Entity 1 [] in
  let e2 := Entity 2 [("schema"%string, VNum 1)] in
  @findWhere sample_host sample_registry [e1; e2] (Options G (Some 1) (Some 0)) = Normal [e1]
  /\ @filterEntities sample_host sample_registry [e1; e2] G
     = Throw (Raised (VStr "not a schema")).
Proof. split; vm_compute; reflexivity. Qed.

(** ** Conjunctions, disjunctions and plain mappings *)

Section Combinators.
Context {host : Host}.
Variable registry : gmap string EvaluatorFn.
Variable e : entity.

Lemma every_true (f : value -> completion bool) (xs : list value) :
  every (fun x => Some (f x)) xs = Some (Normal true)
  <-> Forall (fun x => f x = Normal true) xs.
Proof.
  induction xs as [| x xs IH]; cbn [every]; [by split |].
  rewrite Forall_cons. destruct (f x) as [[|] | err]; [| split; [done | by intros [? _]]..].
  rewrite IH. tauto.
Qed.

Lemma some_true (f : value -> completion bool) (xs : list value) :
  some (fun x => Some (f x)) xs = Some (Normal true)
  <-> exists pre c post,
        xs = pre ++ c :: post
        /\ Forall (fun x => f x = Normal false) pre
        /\ f c = Normal true.
Proof.
  induction xs as [| x xs IH]; cbn [some].
  - split; [done |]. intros (pre & c & post & Hxs & _). by destruct pre.
  - destruct (f x) as [[|] | err] eqn:Hx.
    + split; [| done]. intros _. by exists [], x, xs.
    + rewrite IH. split.
      * intros (pre & c & post & -> & Hpre & Hc).
        exists (x :: pre), c, post. by rewrite Forall_cons.
      * intros (pre & c & post & Hxs & Hpre & Hc).
        destruct pre as [| y pre]; simplify_eq/=; [congruence |].
        apply Forall_cons in Hpre as [_ Hpre]. by exists pre, c, post.
    + split; [done |]. intros (pre & c & post & Hxs & Hpre & Hc).
      destruct pre as [| y pre]; simplify_eq/=; [congruence |].
      apply Forall_cons in Hpre as [? _]. congruence.
Qed.

(** What the two dedicated-key forms evaluate to. *)
Lemma evaluate_and_key (a b : addr) (seq : list value) :
  Some (evaluateCondition registry e (VObj a [("and"%string, VArr b seq)]))
  = every (fun c => Some (evaluateCondition registry e c)) seq.
Proof. by rewrite evaluateCondition_unfold. Qed.

Lemma evaluate_or_key (a b : addr) (seq : list value) :
  Some (evaluateCondition registry e (VObj a [("or"%string, VArr b seq)]))
  = some (fun c => Some (evaluateCondition registry e c)) seq.
Proof. by rewrite evaluateCondition_unfold. Qed.

(** The conditions [eq(field, value)] are objects: [and] keeps them all. *)
Lemma filter_truthy_eq (ps : props) :
  List.filter to_boolean (map (fun '(field, v) => builders.eq field v) ps)
  = map (fun '(field, v) => builders.eq field v) ps.
Proof.
  induction ps as [| [field v] ps IH]; [done |]. cbn [map List.filter].
  by rewrite IH.
Qed.

(** With a [field] key next to it, the operator form of a conjunction or a
    disjunction is not taken for a mapping and evaluates as the
    dedicated-key form does. *)
Lemma logical_operator_with_field (a b : addr) (field : string) (seq : list value) :
  evaluateCondition registry e (BaseCondition field (operator_id AND) (VArr b seq))
  = evaluateCondition registry e (VObj a [("and"%string, VArr b seq)])
  /\ evaluateCondition registry e (BaseCondition field (operator_id OR) (VArr b seq))
     = evaluateCondition registry e (VObj a [("or"%string, VArr b seq)]).
Proof.
  split; apply (inj Some).
  - by rewrite evaluate_and_key, evaluateCondition_unfold.
  - by rewrite evaluate_or_key, evaluateCondition_unfold.
Qed.

End Combinators.

(** ** The scan of [findWhere] against filter-then-slice *)

Lemma slice_from_to {A : Type} (xs : list A) (o l : Z) :
  0 <= o -> 0 <= l ->
  slice xs o (Some (o + l)) = firstn (Z.to_nat l) (skipn (Z.to_nat o) xs).
Proof.
  intros Ho Hl. unfold slice, relative_index.
  destruct (Z.ltb_spec o 0) as [|_]; [lia |].
  destruct (Z.ltb_spec (o + l) 0) as [|_]; [lia |].
  destruct (Z.le_gt_cases (Z.of_nat (length xs)) o) as [Hlen | Hlen].
  - rewrite (drop_ge xs (Z.to_nat o)) by lia.
    rewrite (drop_ge xs (Z.to_nat (o `min` _))) by lia.
    by rewrite !take_nil.
  - replace (o `min` Z.of_nat (length xs)) with o by lia.
    set (ys := skipn (Z.to_nat o) xs).
    assert (length ys = (length xs - Z.to_nat o)%nat) as Hys by apply length_drop.
    destruct (Z.le_gt_cases (o + l) (Z.of_nat (length xs))) as [Hend | Hend].
    + f_equal. lia.
    + rewrite !take_ge; [done | lia..].
Qed.

Section Pagination.
Context {host : Host}.
Variable registry : gmap string EvaluatorFn.
Variable F : value.

(** Without a limit the loop returns what it has, then the matches left
    once the rest of the offset is skipped. *)
Lemma findWhere_loop_unbounded (l skipCount : Z) (entities results rs : list entity)
    (skipped : Z) :
  Array_filter (getEvaluator registry F) entities = Normal rs ->
  findWhere_loop registry F false l skipCount entities results skipped
  = Normal (results ++ skipn (Z.to_nat (skipCount - skipped)) rs).
Proof.
  revert results rs skipped.
  induction entities as [| x rest IH]; intros results rs skipped; cbn [Array_filter findWhere_loop].
  - intros [= <-]. by rewrite drop_nil, app_nil_r.
  - unfold getEvaluator at 1.
    destruct (evaluateCondition registry x F) as [keep | err]; [| done].
    destruct (Array_filter _ rest) as [kept |] eqn:Hrest; [| done].
    intros [= <-]. destruct keep.
    + destruct (Z.ltb_spec skipped skipCount) as [Hskip | Hskip].
      * rewrite (IH _ kept) by done.
        replace (Z.to_nat (skipCount - skipped))
          with (S (Z.to_nat (skipCount - (skipped + 1)))) by lia.
        done.
      * rewrite (IH _ kept) by done.
        replace (Z.to_nat (skipCount - skipped)) with 0%nat by lia.
        by rewrite <- app_assoc.
    + by apply IH.
Qed.


(** A filter that is falsy and returns on every record keeps them all:
    [undefined], [null] and [false] are true of every record, and [0] and
    the empty string throw as soon as there is a record. *)
Lemma filterEntities_falsy (entities rs : list entity) :
  to_boolean F = false ->
  filterEntities registry entities F = Normal rs -> rs = entities.
Proof.
  intros HF. unfold filterEntities. revert rs.
  induction entities as [| x rest IH]; intros rs; cbn [Array_filter].
  - by intros [= <-].
  - unfold getEvaluator at 1.
    assert (evaluateCondition registry x F = Normal true
            \/ evaluateCondition registry x F = Throw TypeError) as [-> | ->].
    { destruct F as [| | [|] | n | s | | | | |]; try done; try by left.
      - right. cbn in HF. apply negb_false_iff, Z.eqb_eq in HF. by subst n.
      - right. cbn in HF. apply negb_false_iff, String.eqb_eq in HF. by subst s. }
    + destruct (Array_filter _ rest) as [kept |]; [| done].
      intros [= <-]. f_equal. by apply IH.
    + done.
Qed.

End Pagination.

(** ** The claims *)

(** C1, at a failing input: on the record [{}] and the module's own
    registry, the dedicated-key forms [{and: []}] and [{or: [null]}] are
    true, and the negation of a condition that is false would be true,
    while the fieldless forms [{operator: 'and', value: []}],
    [{operator: 'or', value: [null]}] and [{operator: 'not', value: ...}]
    are all false: [isPlainRecord] takes them for key/value mappings, and
    they are compared with the record's fields [operator] and [value]. *)
Theorem fieldless_logical_condition_is_a_mapping {host : Host} :
  let e := Entity 1 [] in
  evaluateCondition operatorEvaluators e (builders.and []) = Normal true
  /\ evaluateCondition operatorEvaluators e (LogicalCondition AND (VArr literal [])) = Normal false
  /\ evaluateCondition operatorEvaluators e (builders.or [VNull]) = Normal true
  /\ evaluateCondition operatorEvaluators e (LogicalCondition OR (VArr literal [VNull])) = Normal false
  /\ evaluateCondition operatorEvaluators e (BaseCondition "age" "bogus" (VNum 1)) = Normal false
  /\ evaluateCondition operatorEvaluators e
       (LogicalCondition NOT (BaseCondition "age" "bogus" (VNum 1))) = Normal false
  /\ isPlainRecord (LogicalCondition NOT (BaseCondition "age" "bogus" (VNum 1))) = true.
Proof. repeat split; vm_compute; reflexivity. Qed.




(** C3: a boolean literal passed as the whole filter evaluates to true,
    whether it is [true] or [false], for every record and every registry. *)
Theorem boolean_literal_filter_is_true {host : Host}
    (registry : gmap string EvaluatorFn) (e : entity) (b : bool) :
  evaluateCondition registry e (VBool b) = Normal true.
Proof. by destruct b. Qed.

(** C4, at the failing input [{field, operator: 'and', value: 5}]: the call
    [condition.value.every] throws a TypeError, whatever the record and the
    registry, and so does the same condition with [or]; the calls do not
    return [false].  ([contains] on a number does return [false].) *)
Theorem logical_operator_on_a_number_throws {host : Host}
    (registry : gmap string EvaluatorFn) (e : entity) (field : string) :
  evaluateCondition registry e (BaseCondition field (operator_id AND) (VNum 5))
  = Throw TypeError
  /\ evaluateCondition registry e (BaseCondition field (operator_id OR) (VNum 5))
     = Throw TypeError
  /\ forall n v, conditions.contains (VNum n) v = false.
Proof. split; [reflexivity |]. split; [reflexivity | done]. Qed.




(** C6, at two failing inputs, with the module's own registry: on the
    record [{}], [null] evaluates to true and [NOT(NOT(null))], built as
    the [FilterCondition] type declares it, evaluates to false; on John,
    [eq('name', 'John')] evaluates to true and its double negation to
    false. *)
Theorem double_negation_of_null_is_false {host : Host} :
  let e := Entity 1 [] in
  let C := builders.eq "name" (VStr "John") in
  evaluateCondition operatorEvaluators e VNull = Normal true
  /\ evaluateCondition operatorEvaluators e
       (LogicalCondition NOT (LogicalCondition NOT VNull)) = Normal false
  /\ evaluateCondition operatorEvaluators John C = Normal true
  /\ evaluateCondition operatorEvaluators John
       (LogicalCondition NOT (LogicalCondition NOT C)) = Normal false.
Proof. repeat split; vm_compute; reflexivity. Qed.

(** C7: a plain key/value mapping evaluates as the conjunction, built with
    [and], of the conditions [eq(key, value)] of its entries, in the order
    of [Object.entries], for every record and every registry. *)
Theorem plain_mapping_is_conjunction_of_equalities {host : Host}
    (registry : gmap string EvaluatorFn) (e : entity) (a : addr) (ps : props) :
  isPlainRecord (VObj a ps) = true ->
  evaluateCondition registry e (VObj a ps)
  = evaluateCondition registry e
      (builders.and (map (fun '(field, v) => builders.eq field v) ps)).
Proof.
  intros Hplain. apply (inj Some).
  rewrite !evaluateCondition_unfold.
  unfold builders.and. rewrite filter_truthy_eq.
  unfold evaluate_body at 1. object_passes_the_literal_tests a ps.
  by rewrite Hplain.
Qed.

Lemma plain_mapping_is_conjunction_of_equalities_witness :
  let mapping := [("name"%string, VStr "John"); ("status"%string, VStr "active")] in
  isPlainRecord (VObj 9 mapping) = true
  /\ @evaluateCondition sample_host sample_registry John (VObj 9 mapping)
     = @evaluateCondition sample_host sample_registry John
         (builders.and [builders.eq "name" (VStr "John");
                        builders.eq "status" (VStr "active")]).
Proof.
  split; [reflexivity |].
  apply (@plain_mapping_is_conjunction_of_equalities sample_host). reflexivity.
Defined.

(** C8, amended: a conjunction [{and: seq}] evaluates to true iff every
    element of [seq] evaluates to true, and a disjunction [{or: seq}]
    evaluates to true iff some element evaluates to true and every element
    before it evaluates to false (the elements are evaluated from left to
    right up to the first that is true, so one that throws before it makes
    the disjunction throw); the empty conjunction is true and the empty
    disjunction is false; on two elements the conjunction is
    [evaluate(r,C1) && evaluate(r,C2)] and the disjunction is
    [evaluate(r,C1) || evaluate(r,C2)]. *)
Theorem conjunction_and_disjunction {host : Host}
    (registry : gmap string EvaluatorFn) (e : entity) (a b : addr) :
  (forall seq,
     evaluateCondition registry e (VObj a [("and"%string, VArr b seq)]) = Normal true
     <-> Forall (fun c => evaluateCondition registry e c = Normal true) seq)
  /\ (forall seq,
        evaluateCondition registry e (VObj a [("or"%string, VArr b seq)]) = Normal true
        <-> exists pre c post,
              seq = pre ++ c :: post
              /\ Forall (fun x => evaluateCondition registry e x = Normal false) pre
              /\ evaluateCondition registry e c = Normal true)
  /\ evaluateCondition registry e (VObj a [("and"%string, VArr b [])]) = Normal true
  /\ evaluateCondition registry e (VObj a [("or"%string, VArr b [])]) = Normal false
  /\ (forall C1 C2,
        evaluateCondition registry e (VObj a [("and"%string, VArr b [C1; C2])])
        = and_then (evaluateCondition registry e C1) (evaluateCondition registry e C2))
  /\ (forall C1 C2,
        evaluateCondition registry e (VObj a [("or"%string, VArr b [C1; C2])])
        = or_else (evaluateCondition registry e C1) (evaluateCondition registry e C2)).
Proof.
  split; [| split; [| split; [| split; [| split]]]].
  - intros seq. rewrite <- every_true.
    rewrite <- (evaluate_and_key _ _ a b). split; [by intros -> | by intros [= ->]].
  - intros seq. rewrite <- some_true.
    rewrite <- (evaluate_or_key _ _ a b). split; [by intros -> | by intros [= ->]].
  - apply (inj Some). by rewrite evaluate_and_key.
  - apply (inj Some). by rewrite evaluate_or_key.
  - intros C1 C2. apply (inj Some). rewrite evaluate_and_key. cbn [every].
    by destruct (evaluateCondition registry e C1) as [[|] |],
                (evaluateCondition registry e C2) as [[|] |].
  - intros C1 C2. apply (inj Some). rewrite evaluate_or_key. cbn [some].
    by destruct (evaluateCondition registry e C1) as [[|] |],
                (evaluateCondition registry e C2) as [[|] |].
Qed.

(** C8 as stated fails for the disjunction: of the two elements of
    [{or: [matchesZodSchema('name', schema), null]}] the second evaluates
    to true, and the disjunction throws what the schema throws. *)
Lemma disjunction_counterexample :
  let seq := [builders.matchesZodSchema "name" (VSchema 7); VNull] in
  ~ (@evaluateCondition sample_host sample_registry John (builders.or seq) = Normal true
     <-> exists c, c ∈ seq
           /\ @evaluateCondition sample_host sample_registry John c = Normal true).
Proof.
  intros seq [_ H].
  assert (@evaluateCondition sample_host sample_registry John (builders.or seq)
          = Throw (Raised (VStr "not a schema"))) as Hthrow
    by (vm_compute; reflexivity).
  rewrite Hthrow in H. discriminate H.
  exists VNull. split; [| vm_compute; reflexivity].
  apply list_elem_of_further, list_elem_of_here.
Qed.

(** C9: [matches] takes a compiled regular expression or a pattern source.
    A source that does not parse gives false, a field value that is not a
    string gives false, and otherwise the result is the test of the
    pattern on the string. *)
Theorem matches_resolves_the_pattern {host : Host} :
  (forall x source, regexp_parses source = false ->
     conditions.matches x (VStr source) = false)
  /\ (forall x pattern, typeof_string x = false ->
        conditions.matches x pattern = false)
  /\ (forall s a source flags,
        conditions.matches (VStr s) (VRegExp a source flags)
        = regexp_test source flags s)
  /\ (forall s source, regexp_parses source = true ->
        conditions.matches (VStr s) (VStr source) = regexp_test source "" s).
Proof.
  split; [| split; [| split]].
  - intros x source Hparse. unfold conditions.matches, conditions.resolvePattern.
    by rewrite Hparse.
  - intros x pattern Hx. unfold conditions.matches.
    destruct (conditions.resolvePattern pattern) as [[source flags] |]; [| done].
    by destruct x.
  - reflexivity.
  - intros s source Hparse. unfold conditions.matches, conditions.resolvePattern.
    by rewrite Hparse.
Qed.

Lemma matches_resolves_the_pattern_witness :
  @regexp_parses sample_host "(" = false
  /\ @conditions.matches sample_host (VStr "John") (VStr "(") = false
  /\ @conditions.matches sample_host (VNum 25) (VStr "5") = false
  /\ @regexp_parses sample_host "oh" = true
  /\ @conditions.matches sample_host (VStr "John") (VStr "oh")
     = @regexp_test sample_host "oh" "" "John".
Proof.
  destruct (@matches_resolves_the_pattern sample_host) as (Hbad & Hfield & _ & Hsource).
  split; [reflexivity |]. split; [apply Hbad; reflexivity |].
  split; [apply Hfield; reflexivity |]. split; [reflexivity |].
  apply Hsource. reflexivity.
Defined.

(** C10: with a filter, a limit of 0 is ignored: the call returns what it
    returns without a limit, that is every match after the first [offset]
    ones; without a filter, a limit of 0 gives the empty sequence. *)
Theorem findWhere_limit_zero {host : Host}
    (registry : gmap string EvaluatorFn) (entities : list entity)
    (F : value) (o : option Z) :
  (to_boolean F = true ->
     findWhere registry entities (Options F (Some 0) o)
     = findWhere registry entities (Options F None o)
     /\ forall rs,
          filterEntities registry entities F = Normal rs ->
          findWhere registry entities (Options F (Some 0) o)
          = Normal (skipn (Z.to_nat (default 0 o)) rs))
  /\ (to_boolean F = false ->
        findWhere registry entities (Options F (Some 0) o) = Normal []).
Proof.
  split.
  - intros HF. split; [unfold findWhere; cbn [filter]; by rewrite HF |].
    intros rs Hrs. unfold findWhere. cbn [filter limit offset]. rewrite HF. cbn [negb].
    change (0 <? 0) with false.
    rewrite (findWhere_loop_unbounded _ _ _ _ _ _ rs) by done.
    by rewrite Z.sub_0_r.
  - intros HF. unfold findWhere. cbn [filter limit offset]. rewrite HF. cbn [negb].
    unfold slice. by rewrite Z.add_0_r, Z.sub_diag.
Qed.

Lemma findWhere_limit_zero_witness :
  to_boolean (builders.eq "status" (VStr "active")) = true
  /\ @findWhere sample_host sample_registry [John; Jane; Bob]
       (Options (builders.eq "status" (VStr "active")) (Some 0) (Some 1))
     = Normal [Jane]
  /\ to_boolean VUndefined = false
  /\ @findWhere sample_host sample_registry [John; Jane; Bob]
       (Options VUndefined (Some 0) (Some 1))
     = Normal [].
Proof.
  destruct (@findWhere_limit_zero sample_host sample_registry [John; Jane; Bob]
              (builders.eq "status" (VStr "active")) (Some 1)) as [Hfilter _].
  destruct (@findWhere_limit_zero sample_host sample_registry [John; Jane; Bob]
              VUndefined (Some 1)) as [_ Hnone].
  split; [reflexivity |].
  split; [apply (proj2 (Hfilter eq_refl) [John; Jane]); vm_compute; reflexivity |].
  split; [reflexivity |].
  apply Hnone. reflexivity.
Defined.

(** * Further properties of the code *)

(** ** The evaluator *)

Section EvaluatorAlgebra.
Context {host : Host}.
Variable registry : gmap string EvaluatorFn.
Variable e : entity.

Lemma evaluate_array (a : addr) (cs : list value) :
  Some (evaluateCondition registry e (VArr a cs))
  = every (fun c => Some (evaluateCondition registry e c)) cs.
Proof. by rewrite evaluateCondition_unfold. Qed.

Lemma evaluate_not_with_field (field : string) (C : value) :
  evaluateCondition registry e (BaseCondition field (operator_id NOT) C)
  = negation (evaluateCondition registry e C).
Proof.
  apply (inj Some). rewrite evaluateCondition_unfold.
  unfold evaluate_body. cbn -[lookup].
  by destruct (evaluateCondition registry e C).
Qed.

Lemma every_app (f : value -> option (completion bool)) (xs ys : list value) :
  every f (xs ++ ys)
  = match every f xs with
    | Some (Normal true) => every f ys
    | r => r
    end.
Proof.
  induction xs as [| x xs IH]; cbn [every app]; [done |].
  by destruct (f x) as [[[|] |] |].
Qed.

Lemma some_app (f : value -> option (completion bool)) (xs ys : list value) :
  some f (xs ++ ys)
  = match some f xs with
    | Some (Normal false) => some f ys
    | r => r
    end.
Proof.
  induction xs as [| x xs IH]; cbn [some app]; [done |].
  by destruct (f x) as [[[|] |] |].
Qed.

Lemma negate_some (f : value -> completion bool) (not_ : value -> value)
    (xs : list value) (g : value -> completion bool) :
  (forall x, g (not_ x) = negation (f x)) ->
  negate (some (fun x => Some (f x)) xs)
  = every (fun x => Some (g x)) (map not_ xs).
Proof.
  intros Hg. induction xs as [| x xs IH]; cbn [some every map]; [done |].
  rewrite Hg. by destruct (f x) as [[|] |].
Qed.

Lemma negate_every (f : value -> completion bool) (not_ : value -> value)
    (xs : list value) (g : value -> completion bool) :
  (forall x, g (not_ x) = negation (f x)) ->
  negate (every (fun x => Some (f x)) xs)
  = some (fun x => Some (g x)) (map not_ xs).
Proof.
  intros Hg. induction xs as [| x xs IH]; cbn [some every map]; [done |].
  rewrite Hg. by destruct (f x) as [[|] |].
Qed.

Lemma negate_Some_negation (r : completion bool) :
  negate (Some r) = Some (negation r).
Proof. by destruct r. Qed.

End EvaluatorAlgebra.

(** X1: an array of filters evaluates as the conjunction [{and: [...]}] of
    its elements, for every record and registry; the empty array is true. *)
Theorem array_filter_is_conjunction {host : Host}
    (registry : gmap string EvaluatorFn) (e : entity) (a b c : addr)
    (cs : list value) :
  evaluateCondition registry e (VArr a cs)
  = evaluateCondition registry e (VObj b [("and"%string, VArr c cs)])
  /\ evaluateCondition registry e (VArr a []) = Normal true.
Proof.
  split.
  - apply (inj Some). by rewrite evaluate_array, evaluate_and_key.
  - apply (inj Some). by rewrite evaluate_array.
Qed.

(** X2: with a [field] key next to it, [{operator: 'not', value: C}] is the
    negation of [C], whatever the registry holds, and two such negations
    cancel: the result is that of [C], a throw included. *)
Theorem negation_with_field_is_involutive {host : Host}
    (registry : gmap string EvaluatorFn) (e : entity) (f1 f2 : string) (C : value) :
  evaluateCondition registry e (BaseCondition f1 (operator_id NOT) C)
  = negation (evaluateCondition registry e C)
  /\ evaluateCondition registry e
       (BaseCondition f1 (operator_id NOT) (BaseCondition f2 (operator_id NOT) C))
     = evaluateCondition registry e C.
Proof.
  split; [apply evaluate_not_with_field |].
  rewrite !evaluate_not_with_field.
  by destruct (evaluateCondition registry e C) as [[|] |].
Qed.

(** X3: De Morgan, for the negation with a [field] key: the negation of a
    disjunction is the conjunction of the negations, and the negation of a
    conjunction is the disjunction of the negations, with the same result
    when an element throws. *)
Theorem de_morgan {host : Host}
    (registry : gmap string EvaluatorFn) (e : entity) (f1 f2 : string)
    (a b a' b' : addr) (cs : list value) :
  evaluateCondition registry e
    (BaseCondition f1 (operator_id NOT) (VObj a [("or"%string, VArr b cs)]))
  = evaluateCondition registry e
      (VObj a' [("and"%string, VArr b' (map (BaseCondition f2 (operator_id NOT)) cs))])
  /\ evaluateCondition registry e
       (BaseCondition f1 (operator_id NOT) (VObj a [("and"%string, VArr b cs)]))
     = evaluateCondition registry e
         (VObj a' [("or"%string, VArr b' (map (BaseCondition f2 (operator_id NOT)) cs))]).
Proof.
  split; apply (inj Some); rewrite evaluate_not_with_field, <- negate_Some_negation.
  - rewrite evaluate_or_key, evaluate_and_key.
    apply negate_some. intros x. apply evaluate_not_with_field.
  - rewrite evaluate_or_key, evaluate_and_key.
    apply negate_every. intros x. apply evaluate_not_with_field.
Qed.

(** X4: a conjunction of two sequences put end to end is the [&&] of the
    two conjunctions, and a disjunction the [||] of the two disjunctions. *)
Theorem conjunction_of_concatenation {host : Host}
    (registry : gmap string EvaluatorFn) (e : entity) (a b : addr)
    (xs ys : list value) :
  evaluateCondition registry e (VObj a [("and"%string, VArr b (xs ++ ys))])
  = and_then (evaluateCondition registry e (VObj a [("and"%string, VArr b xs)]))
             (evaluateCondition registry e (VObj a [("and"%string, VArr b ys)]))
  /\ evaluateCondition registry e (VObj a [("or"%string, VArr b (xs ++ ys))])
     = or_else (evaluateCondition registry e (VObj a [("or"%string, VArr b xs)]))
               (evaluateCondition registry e (VObj a [("or"%string, VArr b ys)])).
Proof.
  split; apply (inj Some).
  - rewrite evaluate_and_key, every_app, <- (evaluate_and_key _ _ a b).
    destruct (evaluateCondition registry e (VObj a [("and"%string, VArr b xs)]))
      as [[|] |]; cbn [and_then]; [| done..].
    by rewrite evaluate_and_key.
  - rewrite evaluate_or_key, some_app, <- (evaluate_or_key _ _ a b).
    destruct (evaluateCondition registry e (VObj a [("or"%string, VArr b xs)]))
      as [[|] |]; cbn [or_else]; [done | | done].
    by rewrite evaluate_or_key.
Qed.

(** ** Single conditions and the registry *)

Section Dispatch.
Context {host : Host}.
Variable e : entity.





End Dispatch.








(** X9: a number or a string passed as the whole filter makes
    [evaluateCondition] throw a TypeError (at ['and' in condition]),
    whatever the record and the registry. *)
Theorem primitive_filter_throws {host : Host}
    (registry : gmap string EvaluatorFn) (e : entity) :
  (forall n, evaluateCondition registry e (VNum n) = Throw TypeError)
  /\ (forall s, evaluateCondition registry e (VStr s) = Throw TypeError).
Proof.
  split; intros x; apply (inj Some); rewrite evaluateCondition_unfold;
    unfold evaluate_body; by rewrite isPlainRecord_primitive.
Qed.







(** ** The operations on collections *)

Section CollectionLemmas.
Context {host : Host}.
Variable registry : gmap string EvaluatorFn.
Variable F : value.


Lemma Array_some_of_filter (entities rs : list entity) :
  Array_filter (getEvaluator registry F) entities = Normal rs ->
  Array_some (getEvaluator registry F) entities = Normal (0 <? Z.of_nat (length rs)).
Proof.
  revert rs. induction entities as [| x rest IH]; intros rs; cbn [Array_filter Array_some].
  - by intros [= <-].
  - destruct (getEvaluator registry F x) as [keep | err]; [| done].
    destruct (Array_filter _ rest) as [kept |]; [| done].
    intros [= <-]. destruct keep; [done |]. by apply IH.
Qed.

Lemma Array_find_of_filter (entities rs : list entity) :
  Array_filter (getEvaluator registry F) entities = Normal rs ->
  Array_find (getEvaluator registry F) entities = Normal (head rs).
Proof.
  revert rs. induction entities as [| x rest IH]; intros rs; cbn [Array_filter Array_find].
  - by intros [= <-].
  - destruct (getEvaluator registry F x) as [keep | err]; [| done].
    destruct (Array_filter _ rest) as [kept |]; [| done].
    intros [= <-]. destruct keep; [done |]. by apply IH.
Qed.

(** The loop without a limit, the throws included. *)
Lemma findWhere_loop_unbounded_exact (l skipCount : Z)
    (entities results : list entity) (skipped : Z) :
  findWhere_loop registry F false l skipCount entities results skipped
  = match Array_filter (getEvaluator registry F) entities with
    | Normal rs => Normal (results ++ skipn (Z.to_nat (skipCount - skipped)) rs)
    | Throw err => Throw err
    end.
Proof.
  revert results skipped.
  induction entities as [| x rest IH]; intros results skipped;
    cbn [Array_filter findWhere_loop].
  - by rewrite drop_nil, app_nil_r.
  - unfold getEvaluator at 1.
    destruct (evaluateCondition registry x F) as [[|] | err]; [| | done].
    + destruct (Z.ltb_spec skipped skipCount) as [Hskip | Hskip]; rewrite IH;
        destruct (Array_filter _ rest) as [kept | err]; try done.
      * replace (Z.to_nat (skipCount - skipped))
          with (S (Z.to_nat (skipCount - (skipped + 1)))) by lia.
        done.
      * replace (Z.to_nat (skipCount - skipped)) with 0%nat by lia.
        by rewrite <- app_assoc.
    + rewrite IH. by destruct (Array_filter _ rest).
Qed.


(** What the loop adds to [results] are records of the input, in their
    order, that the filter is true of. *)
Lemma findWhere_loop_sound (hasLimit : bool) (l skipCount : Z)
    (entities results rs : list entity) (skipped : Z) :
  findWhere_loop registry F hasLimit l skipCount entities results skipped = Normal rs ->
  exists more,
    rs = results ++ more
    /\ sublist more entities
    /\ Forall (fun x => evaluateCondition registry x F = Normal true) more.
Proof.
  revert results skipped.
  induction entities as [| x rest IH]; intros results skipped;
    cbn [findWhere_loop].
  - intros [= <-]. exists []. by rewrite app_nil_r.
  - destruct (evaluateCondition registry x F) as [[|] | err] eqn:Hx; [| | done].
    + destruct (Z.ltb_spec skipped skipCount) as [Hskip | Hskip].
      * intros (more & -> & Hsub & Hall)%IH. exists more. eauto using sublist_cons.
      * destruct (hasLimit && _).
        -- intros [= <-]. exists [x]. repeat split; [| by repeat constructor].
           apply sublist_skip, sublist_nil_l.
        -- intros (more & -> & Hsub & Hall)%IH. exists (x :: more).
           rewrite <- app_assoc. repeat split; [by apply sublist_skip | by constructor].
    + intros (more & -> & Hsub & Hall)%IH. exists more. eauto using sublist_cons.
Qed.


End CollectionLemmas.



(** X14: with a filter that is [undefined], [null], [true] or [false],
    [filterEntities] returns the input as it is, [countWhere] its length,
    [findFirst] its first record ([null] when it is empty) and
    [matchExists] whether it is not empty. *)
Theorem absent_filter_is_identity {host : Host}
    (registry : gmap string EvaluatorFn) (entities : list entity) (F : value) :
  F ∈ [VUndefined; VNull; VBool true; VBool false] ->
  filterEntities registry entities F = Normal entities
  /\ countWhere registry entities F = Normal (Z.of_nat (length entities))
  /\ findFirst registry entities F = Normal (head entities)
  /\ matchExists registry entities F = Normal (0 <? Z.of_nat (length entities)).
Proof.
  intros HF.
  assert (forall x, evaluateCondition registry x F = Normal true) as Htrue.
  { intros x. repeat (apply elem_of_cons in HF as [-> | HF]; [done |]).
    by apply elem_of_nil in HF. }
  assert (Array_filter (getEvaluator registry F) entities = Normal entities) as Hall.
  { induction entities as [| x rest IH]; [done |].
    cbn [Array_filter]. unfold getEvaluator at 1. by rewrite Htrue, IH. }
  split; [exact Hall |]. split; [| split].
  - unfold countWhere. by rewrite Hall.
  - unfold findFirst. by rewrite (Array_find_of_filter _ _ _ _ Hall).
  - unfold matchExists. destruct (to_boolean F); cbn [negb]; [| done].
    by rewrite (Array_some_of_filter _ _ _ _ Hall).
Qed.

Lemma absent_filter_is_identity_witness :
  @filterEntities sample_host sample_registry [John; Jane; Bob] VUndefined
  = Normal [John; Jane; Bob]
  /\ @matchExists sample_host sample_registry [] (VBool true) = Normal false.
Proof.
  split.
  - apply (@absent_filter_is_identity sample_host). apply list_elem_of_here.
  - apply (@absent_filter_is_identity sample_host sample_registry [] (VBool true)).
    do 2 apply list_elem_of_further. apply list_elem_of_here.
Defined.

(** X15: when [countWhere] returns [n], [matchExists] returns whether [n]
    is above 0, and [findFirst] returns the first record [filterEntities]
    keeps, for every filter. *)
Theorem countWhere_matchExists_findFirst {host : Host}
    (registry : gmap string EvaluatorFn) (entities : list entity) (F : value) (n : Z) :
  countWhere registry entities F = Normal n ->
  matchExists registry entities F = Normal (0 <? n)
  /\ exists rs,
       filterEntities registry entities F = Normal rs
       /\ n = Z.of_nat (length rs)
       /\ findFirst registry entities F = Normal (head rs).
Proof.
  unfold countWhere. intros Hn.
  destruct (Array_filter (getEvaluator registry F) entities) as [rs |] eqn:Hrs; [| done].
  injection Hn as <-. split.
  - unfold matchExists. destruct (to_boolean F) eqn:HF; cbn [negb].
    + by apply Array_some_of_filter.
    + by rewrite (filterEntities_falsy _ _ _ _ HF Hrs).
  - exists rs. split; [done |]. split; [done |]. by apply Array_find_of_filter.
Qed.

Lemma countWhere_matchExists_findFirst_witness :
  @countWhere sample_host sample_registry [John; Jane; Bob]
    (builders.eq "status" (VStr "nonexistent")) = Normal 0
  /\ @matchExists sample_host sample_registry [John; Jane; Bob]
       (builders.eq "status" (VStr "nonexistent")) = Normal false.
Proof.
  assert (@countWhere sample_host sample_registry [John; Jane; Bob]
            (builders.eq "status" (VStr "nonexistent")) = Normal 0) as Hn
    by (vm_compute; reflexivity).
  split; [exact Hn |].
  exact (proj1 (@countWhere_matchExists_findFirst sample_host _ _ _ _ Hn)).
Defined.

(** X16: [findFirst] returns a record iff the filter is false of the
    records before it and true of it, and returns [null] iff the filter is
    false of every record. *)
Theorem findFirst_is_the_first_accepted {host : Host}
    (registry : gmap string EvaluatorFn) (entities : list entity) (F : value) :
  (forall x,
     findFirst registry entities F = Normal (Some x)
     <-> exists pre post,
           entities = pre ++ x :: post
           /\ Forall (fun y => evaluateCondition registry y F = Normal false) pre
           /\ evaluateCondition registry x F = Normal true)
  /\ (findFirst registry entities F = Normal None
      <-> Forall (fun y => evaluateCondition registry y F = Normal false) entities).
Proof.
  unfold findFirst. split.
  - intros x. induction entities as [| y rest IH]; cbn [Array_find].
    + split; [done |]. intros (pre & post & Heq & _). by destruct pre.
    + unfold getEvaluator at 1.
      destruct (evaluateCondition registry y F) as [[|] | err] eqn:Hy.
      * split.
        -- intros [= ->]. by exists [], rest.
        -- intros (pre & post & Heq & Hpre & Hx).
           destruct pre as [| z pre]; simplify_eq/=; [done |].
           apply Forall_cons in Hpre as [? _]. congruence.
      * rewrite IH. split.
        -- intros (pre & post & -> & Hpre & Hx). exists (y :: pre), post.
           by rewrite Forall_cons.
        -- intros (pre & post & Heq & Hpre & Hx).
           destruct pre as [| z pre]; simplify_eq/=; [congruence |].
           apply Forall_cons in Hpre as [_ Hpre]. by exists pre, post.
      * split; [done |]. intros (pre & post & Heq & Hpre & Hx).
        destruct pre as [| z pre]; simplify_eq/=; [congruence |].
        apply Forall_cons in Hpre as [? _]. congruence.
  - induction entities as [| y rest IH]; cbn [Array_find]; [by split |].
    unfold getEvaluator at 1. rewrite Forall_cons.
    destruct (evaluateCondition registry y F) as [[|] | err] eqn:Hy.
    + split; [done | by intros [? _]].
    + rewrite IH. tauto.
    + split; [done | by intros [? _]].
Qed.

(** X17: with a truthy filter and no limit, [findWhere] is
    [filterEntities] with the first [offset] matches dropped (none for an
    absent or negative offset), and throws what [filterEntities] throws. *)
Theorem findWhere_without_limit {host : Host}
    (registry : gmap string EvaluatorFn) (entities : list entity)
    (F : value) (o : option Z) :
  to_boolean F = true ->
  findWhere registry entities (Options F None o)
  = match filterEntities registry entities F with
    | Normal rs => Normal (skipn (Z.to_nat (default 0 o)) rs)
    | Throw err => Throw err
    end.
Proof.
  intros HF. unfold findWhere, filterEntities. cbn [filter limit offset].
  rewrite HF. cbn [negb]. rewrite findWhere_loop_unbounded_exact.
  destruct (Array_filter _ entities); [| done]. by rewrite Z.sub_0_r.
Qed.

Lemma findWhere_without_limit_witness :
  to_boolean (builders.eq "status" (VStr "active")) = true
  /\ @findWhere sample_host sample_registry [John; Jane; Bob]
       (Options (builders.eq "status" (VStr "active")) None (Some 1))
     = Normal [Jane].
Proof.
  split; [reflexivity |].
  rewrite (@findWhere_without_limit sample_host) by reflexivity.
  vm_compute. reflexivity.
Defined.

(** X18: with a falsy filter [findWhere] does not evaluate it: without
    limit and offset it returns the input as it is, and with a limit and an
    offset that are not negative it returns the [limit] records after the
    first [offset] ones, also for the filters 0 and the empty string, on
    which [filterEntities] throws. *)
Theorem findWhere_without_filter {host : Host}
    (registry : gmap string EvaluatorFn) (entities : list entity) (F : value) :
  to_boolean F = false ->
  findWhere registry entities (Options F None None) = Normal entities
  /\ (forall l o, 0 <= l -> 0 <= o ->
        findWhere registry entities (Options F (Some l) (Some o))
        = Normal (firstn (Z.to_nat l) (skipn (Z.to_nat o) entities)))
  /\ (forall x rest, entities = x :: rest -> F = VNum 0 \/ F = VStr "" ->
        filterEntities registry entities F = Throw TypeError).
Proof.
  intros HF. unfold findWhere. cbn [filter limit offset]. rewrite HF. cbn [negb].
  split; [| split].
  - unfold slice, relative_index. cbn [default from_option id].
    change (0 <? 0) with false. cbv iota.
    rewrite Z.min_l by lia. rewrite Z.sub_0_r, Nat2Z.id. cbn [Z.to_nat skipn].
    by rewrite take_ge.
  - intros l o Hl Ho. cbn [default from_option id]. by rewrite slice_from_to.
  - intros x rest -> [-> | ->]; reflexivity.
Qed.

Lemma findWhere_without_filter_witness :
  to_boolean (VNum 0) = false
  /\ @findWhere sample_host sample_registry [John; Jane; Bob]
       (Options (VNum 0) (Some 2) (Some 1)) = Normal [Jane; Bob]
  /\ @filterEntities sample_host sample_registry [John; Jane; Bob] (VNum 0)
     = Throw TypeError.
Proof.
  destruct (@findWhere_without_filter sample_host sample_registry
              [John; Jane; Bob] (VNum 0) eq_refl) as (_ & Hpage & Hthrow).
  split; [reflexivity |]. split.
  - rewrite (Hpage 2 1) by lia. reflexivity.
  - apply (Hthrow John [Jane; Bob]); [reflexivity | by left].
Defined.





(** X21: with a truthy filter, what [findWhere] returns are records of the
    input, in the order of the input, of each of which the filter is
    true. *)
Theorem findWhere_returns_accepted_records {host : Host}
    (registry : gmap string EvaluatorFn) (entities rs : list entity) (o : options) :
  to_boolean (filter o) = true ->
  findWhere registry entities o = Normal rs ->
  sublist rs entities
  /\ Forall (fun x => evaluateCondition registry x (filter o) = Normal true) rs.
Proof.
  intros HF. unfold findWhere. rewrite HF. cbn [negb].
  intros (more & -> & Hsub & Hall)%findWhere_loop_sound. done.
Qed.

Lemma findWhere_returns_accepted_records_witness :
  let o := Options (builders.eq "status" (VStr "active")) (Some 5) (Some 1) in
  to_boolean (filter o) = true
  /\ @findWhere sample_host sample_registry [John; Jane; Bob] o = Normal [Jane]
  /\ sublist [Jane] [John; Jane; Bob].
Proof.
  intros o.
  assert (@findWhere sample_host sample_registry [John; Jane; Bob] o = Normal [Jane])
    as Hrs by (vm_compute; reflexivity).
  split; [reflexivity |]. split; [exact Hrs |].
  exact (proj1 (@findWhere_returns_accepted_records sample_host _ _ _ o eq_refl Hrs)).
Defined.

(** ** The primitive predicates *)



Lemma string_includes_substring (s t : string) (k : nat) :
  String.substring k (String.length t) s = t -> string_includes s t = true.
Proof.
  revert k. induction s as [| c s IH]; intros k Ht.
  - assert (t = ""%string) as -> by (by destruct k, (String.length t)).
    reflexivity.
  - cbn [string_includes]. destruct k as [| k].
    + apply String.prefix_correct in Ht. by rewrite Ht.
    + cbn [String.substring] in Ht. rewrite (IH k Ht). apply orb_true_r.
Qed.




(** X24: whatever the value searched for, a string that starts with it or
    ends with it contains it. *)
Theorem prefix_and_suffix_are_contained {host : Host} (x v : value) :
  (conditions.startsWith x v = true -> conditions.contains x v = true)
  /\ (conditions.endsWith x v = true -> conditions.contains x v = true).
Proof.
  destruct x as [| | | | s | | | | |]; try done. cbn [conditions.startsWith
    conditions.endsWith conditions.contains]. split.
  - intros Hpre. destruct s; cbn [string_includes]; by rewrite Hpre.
  - unfold string_endsWith. intros [_ Heq%String.eqb_eq]%andb_prop.
    by eapply string_includes_substring.
Qed.

Lemma prefix_and_suffix_are_contained_witness :
  @conditions.endsWith sample_host (VStr "john@example.com") (VStr ".com") = true
  /\ @conditions.contains sample_host (VStr "john@example.com") (VStr ".com") = true.
Proof.
  split; [reflexivity |].
  apply (@prefix_and_suffix_are_contained sample_host). reflexivity.
Defined.

(** X25: with a number as threshold, [minLength] and [maxLength] compare
    the length of a string or an array with it, so both hold iff the
    length is the threshold; of a value that is neither a string nor an
    array both are false, whatever the threshold. *)
Theorem length_predicates {host : Host} :
  (forall x n k, conditions.length_of x = Some n ->
     conditions.minLength x (VNum k) = (k <=? n)
     /\ conditions.maxLength x (VNum k) = (n <=? k)
     /\ (conditions.minLength x (VNum k) && conditions.maxLength x (VNum k) = true
         <-> n = k))
  /\ (forall x v, conditions.length_of x = None ->
        conditions.minLength x v = false /\ conditions.maxLength x v = false).
Proof.
  split.
  - intros x n k Hn. unfold conditions.minLength, conditions.maxLength.
    rewrite Hn. unfold conditions.gte, conditions.lte. cbn [less_than].
    destruct (Z.ltb_spec n k), (Z.ltb_spec k n), (Z.leb_spec k n), (Z.leb_spec n k);
      repeat split; try done; try lia.
  - intros x v Hx. unfold conditions.minLength, conditions.maxLength. by rewrite Hx.
Qed.

Lemma length_predicates_witness :
  @conditions.minLength sample_host (VStr "hello") (VNum 3) = (3 <=? 5)
  /\ @conditions.maxLength sample_host (VNum 5) (VNum 10) = false.
Proof.
  destruct (@length_predicates sample_host) as [Hlen Hnone].
  split.
  - apply (Hlen (VStr "hello") 5 3). reflexivity.
  - apply (Hnone (VNum 5) (VNum 10)). reflexivity.
Defined.


(** ** The methods on [Array.prototype] *)

Section Extensions.
Import extensions.

Lemma method_name_inj (m m' : method) : method_name m = method_name m' -> m = m'.
Proof. by destruct m, m'. Qed.

Lemma install_lookup (overwrite : bool) (m : method) (proto : gmap string member)
    (name : string) :
  install overwrite m proto !! name
  = if decide (name = method_name m) then
      if bound proto name && negb overwrite then proto !! name else Some (Installed m)
    else proto !! name.
Proof.
  unfold install. case_decide as Hname.
  - subst name. destruct (bound proto (method_name m)), overwrite; cbn;
      by rewrite ?lookup_insert_eq.
  - destruct (negb _ || _); [| done]. by rewrite lookup_insert_ne.
Qed.

Lemma install_bound_other (overwrite : bool) (m : method) (proto : gmap string member)
    (name : string) :
  name <> method_name m -> bound (install overwrite m proto) name = bound proto name.
Proof.
  intros Hname. unfold bound. rewrite install_lookup. by case_decide.
Qed.

Lemma enable_lookup_method (overwrite : option bool) (proto : gmap string member)
    (m : method) :
  enableArrayExtensions overwrite proto !! method_name m
  = if bound proto (method_name m) && negb (default false overwrite)
    then proto !! method_name m
    else Some (Installed m).
Proof.
  unfold enableArrayExtensions.
  destruct m; rewrite !install_lookup;
    repeat (case_decide; [try discriminate |]); try done;
    rewrite ?install_bound_other by discriminate; try done;
    repeat (case_decide; try discriminate); done.
Qed.

Lemma enable_lookup_other (overwrite : option bool) (proto : gmap string member)
    (name : string) :
  (forall m, name <> method_name m) ->
  enableArrayExtensions overwrite proto !! name = proto !! name.
Proof.
  intros Hname. unfold enableArrayExtensions. rewrite !install_lookup.
  repeat (case_decide; [exfalso; by eapply Hname |]). done.
Qed.



End Extensions.

Lemma method_name_cases (name : string) :
  (exists m, name = extensions.method_name m)
  \/ (forall m, name <> extensions.method_name m).
Proof.
  destruct (decide (name = extensions.method_name extensions.m_where)); [eauto |].
  destruct (decide (name = extensions.method_name extensions.m_first)); [eauto |].
  destruct (decide (name = extensions.method_name extensions.m_exists)); [eauto |].
  destruct (decide (name = extensions.method_name extensions.m_count)); [eauto |].
  destruct (decide (name = extensions.method_name extensions.m_findWhere)); [eauto |].
  right. by intros [].
Qed.


(** X27: [enableArrayExtensions] binds each of the five names to its
    method, except, without [overwrite], a name that already holds
    something truthy, which keeps it; afterwards all five names are bound,
    every other name holds what it held, and a second call changes
    nothing. *)
Theorem enableArrayExtensions_binds_the_methods
    (overwrite : option bool) (proto : gmap string extensions.member) :
  (forall m,
     extensions.enableArrayExtensions overwrite proto !! extensions.method_name m
     = if extensions.bound proto (extensions.method_name m)
          && negb (default false overwrite)
       then proto !! extensions.method_name m
       else Some (extensions.Installed m))
  /\ (forall m,
        extensions.bound (extensions.enableArrayExtensions overwrite proto)
          (extensions.method_name m) = true)
  /\ (forall name, (forall m, name <> extensions.method_name m) ->
        extensions.enableArrayExtensions overwrite proto !! name = proto !! name)
  /\ extensions.enableArrayExtensions overwrite
       (extensions.enableArrayExtensions overwrite proto)
     = extensions.enableArrayExtensions overwrite proto.
Proof.
  assert (forall m,
            extensions.bound (extensions.enableArrayExtensions overwrite proto)
              (extensions.method_name m) = true) as Hbound.
  { intros m. unfold extensions.bound at 1. rewrite enable_lookup_method.
    destruct (extensions.bound proto (extensions.method_name m)) eqn:Hb; [| done].
    destruct (negb _); [| done]. cbn [andb]. unfold extensions.bound in Hb.
    by destruct (proto !! extensions.method_name m) as [[] |]. }
  split; [apply enable_lookup_method |]. split; [done |].
  split; [apply enable_lookup_other |].
  apply map_eq. intros name.
  destruct (method_name_cases name) as [[m ->] | Hname].
  - rewrite (enable_lookup_method _ (extensions.enableArrayExtensions _ _)), Hbound.
    destruct (negb (default false overwrite)) eqn:How; [done |]. cbn [andb].
    rewrite enable_lookup_method, How. by rewrite andb_false_r.
  - by rewrite !enable_lookup_other.
Qed.

Lemma enableArrayExtensions_binds_the_methods_witness :
  let proto : gmap string extensions.member :=
    {[ "where"%string := extensions.OtherFunction 1 ]} in
  extensions.enableArrayExtensions (Some false) proto !! "where"%string
  = Some (extensions.OtherFunction 1)
  /\ extensions.enableArrayExtensions (Some true) proto !! "where"%string
     = Some (extensions.Installed extensions.m_where)
  /\ extensions.enableArrayExtensions None proto !! "map"%string = None.
Proof.
  intros proto.
  destruct (enableArrayExtensions_binds_the_methods (Some false) proto) as (Hkeep & _).
  destruct (enableArrayExtensions_binds_the_methods (Some true) proto) as (Hover & _).
  destruct (enableArrayExtensions_binds_the_methods None proto) as (_ & _ & Hother & _).
  split; [exact (Hkeep extensions.m_where) |].
  split; [exact (Hover extensions.m_where) |].
  rewrite (Hother "map"%string); [reflexivity | by intros []].
Defined.




